(** * verify_misc_costs.py: the Playwright verification script, embedded

    The script registers ten route stubs on a page, navigates twice, waits
    for the pricing tab, clicks it, asserts two visibilities and takes a
    screenshot; its entry point wraps this flow in try / except Exception /
    finally inside a [with sync_playwright()] block.

    The embedding has three layers:
    - [Re]: the fragment of Python's [re] syntax the route patterns use,
      with [Pattern.search] as Playwright applies it to a request URL;
    - [Json]: a reader for the JSON documents the stubs serve, so that the
      shape of a fixture body is a property of the parsed value;
    - the script itself, written in a small monad whose effects are the
      calls made on the Playwright API and the lines printed.  The browser,
      the frontend and the file system are the [world]: it decides, for each
      call and the history so far, whether the call returns or raises. *)

From Stdlib Require Import List String Ascii ZArith Bool Lia.
Import ListNotations.
Open Scope string_scope.
Open Scope list_scope.
Set Warnings "-register-all".

(** ** Characters and strings as the script sees them *)

Definition chars (s : string) : list ascii := list_ascii_of_string s.

Definition LF : ascii := ascii_of_nat 10.
Definition DQ : ascii := ascii_of_nat 34.
Definition SQ : ascii := ascii_of_nat 39.

(** The fixture bodies are Python literals in single (or triple single)
    quotes that contain the JSON quotation mark.  They are written below
    with an apostrophe where the source has that mark; [py] puts the mark
    back.  No fixture body of the source contains an apostrophe. *)
Fixpoint py (s : string) : string :=
  match s with
  | EmptyString => EmptyString
  | String c s' => String (if Ascii.eqb c SQ then DQ else c) (py s')
  end.

(** [s.endswith(t)] and [t in s] on character lists. *)
Fixpoint starts_with (t s : list ascii) : bool :=
  match t, s with
  | [], _ => true
  | a :: t', b :: s' => Ascii.eqb a b && starts_with t' s'
  | _ :: _, [] => false
  end.

Fixpoint contains (t s : list ascii) : bool :=
  starts_with t s ||
  match s with
  | [] => false
  | _ :: s' => contains t s'
  end.

Definition ends_with (t s : list ascii) : bool :=
  starts_with (rev t) (rev s).

Definition no_newline (s : list ascii) : Prop := ~ In LF s.

(** ** Python regular expressions: the fragment used by the routes *)

Module Re.

(** What one character of the subject is tested against. *)
Inductive atom : Type :=
| AChar (c : ascii)   (* a literal character *)
| AAny.               (* [.]: any character except a line feed *)

Inductive item : Type :=
| One (a : atom)      (* the atom, once *)
| Star (a : atom)     (* the atom followed by [*] *)
| End.                (* [$] *)

Definition pattern := list item.

(** Characters that are operators of [re] outside this fragment; a
    pattern that uses one is not compiled by this model. *)
Definition unsupported (c : ascii) : bool :=
  existsb (Ascii.eqb c) (chars "*+?{}[]()|\^").

Definition atom_of (c : ascii) : atom :=
  if Ascii.eqb c "." then AAny else AChar c.

Fixpoint compile_chars (s : list ascii) : option pattern :=
  match s with
  | [] => Some []
  | c :: rest =>
      if Ascii.eqb c "$" then option_map (cons End) (compile_chars rest)
      else if unsupported c then None
      else
        match rest with
        | q :: rest' =>
            if Ascii.eqb q "*"
            then option_map (cons (Star (atom_of c))) (compile_chars rest')
            else option_map (cons (One (atom_of c))) (compile_chars rest)
        | [] => Some [One (atom_of c)]
        end
  end.

(** [re.compile(r"...")] *)
Definition compile (s : string) : option pattern := compile_chars (chars s).

Definition accepts (a : atom) (c : ascii) : bool :=
  match a with
  | AChar d => Ascii.eqb d c
  | AAny => negb (Ascii.eqb c LF)
  end.

(** [$] without MULTILINE: at the end of the subject, or just before a
    line feed that is its last character. *)
Definition at_end (s : list ascii) : bool :=
  match s with
  | [] => true
  | [c] => Ascii.eqb c LF
  | _ => false
  end.

(** Does the pattern match a prefix of [s]?  A star tries every number of
    repetitions, so the answer does not depend on greediness. *)
Fixpoint match_here (p : pattern) (s : list ascii) : bool :=
  match p with
  | [] => true
  | One a :: p' =>
      match s with
      | c :: s' => accepts a c && match_here p' s'
      | [] => false
      end
  | Star a :: p' =>
      (fix star (s : list ascii) : bool :=
         match_here p' s ||
         match s with
         | c :: s' => accepts a c && star s'
         | [] => false
         end) s
  | End :: p' => at_end s && match_here p' s
  end.

(** [Pattern.search(s)] as a truth value: a match starting at some
    position of [s], the end included. *)
Fixpoint search (p : pattern) (s : list ascii) : bool :=
  match_here p s ||
  match s with
  | [] => false
  | _ :: s' => search p s'
  end.

End Re.

(** Playwright tests a request URL against a compiled pattern with
    [Pattern.search]. *)
Definition url_matches (pat url : string) : bool :=
  match Re.compile pat with
  | Some p => Re.search p (chars url)
  | None => false
  end.

(** ** JSON documents *)

Module Json.

(** A number is kept as mantissa and number of decimals: [2.50] is
    [Num 250 2]. *)
Inductive value : Type :=
| Null
| Bool (b : bool)
| Num (mantissa : Z) (decimals : nat)
| Str (s : string)
| Arr (items : list value)
| Obj (members : list (string * value)).

Definition is_ws (c : ascii) : bool :=
  existsb (Ascii.eqb c) [" "%char; LF; ascii_of_nat 9; ascii_of_nat 13].

Fixpoint skip_ws (s : list ascii) : list ascii :=
  match s with
  | c :: s' => if is_ws c then skip_ws s' else s
  | [] => []
  end.

Definition digit_of (c : ascii) : option Z :=
  let n := Z.of_nat (nat_of_ascii c) in
  if ((48 <=? n) && (n <=? 57))%Z then Some (n - 48)%Z else None.

(** Digits at the head of [s], accumulated into [acc]; the count of
    digits read comes with the result. *)
Fixpoint read_digits (s : list ascii) (acc : Z) (n : nat)
  : Z * nat * list ascii :=
  match s with
  | c :: s' =>
      match digit_of c with
      | Some d => read_digits s' (10 * acc + d)%Z (S n)
      | None => (acc, n, s)
      end
  | [] => (acc, n, [])
  end.

(** An unsigned number: digits, then optionally a point and digits.
    Exponents are outside the fragment. *)
Definition read_number (s : list ascii) : option (Z * nat * list ascii) :=
  match read_digits s 0%Z 0 with
  | (_, O, _) => None
  | (i, _, "."%char :: s1) =>
      match read_digits s1 i 0 with
      | (_, O, _) => None
      | (m, k, s2) => Some (m, k, s2)
      end
  | (i, _, s1) => Some (i, O, s1)
  end.

(** The characters of a string up to its closing quotation mark.  Escapes
    are outside the fragment. *)
Fixpoint read_string (s : list ascii) : option (string * list ascii) :=
  match s with
  | [] => None
  | c :: s' =>
      if Ascii.eqb c DQ then Some (EmptyString, s')
      else if Ascii.eqb c "\" then None
      else
        match read_string s' with
        | Some (t, r) => Some (String c t, r)
        | None => None
        end
  end.

Definition expect_word (w : string) (v : value) (s : list ascii)
  : option (value * list ascii) :=
  if starts_with (chars w) s
  then Some (v, skipn (String.length w) s)
  else None.

(** Recursive descent, with fuel bounding the nesting and the number of
    items; every call consumes input, so the length of the input is
    enough fuel. *)
Fixpoint read_value (fuel : nat) (s : list ascii)
  : option (value * list ascii) :=
  match fuel with
  | O => None
  | S fuel' =>
      match skip_ws s with
      | [] => None
      | c :: s' =>
          if Ascii.eqb c "{" then
            match skip_ws s' with
            | d :: s'' =>
                if Ascii.eqb d "}" then Some (Obj [], s'')
                else
                  match read_members fuel' (d :: s'') with
                  | Some (ms, r) => Some (Obj ms, r)
                  | None => None
                  end
            | [] => None
            end
          else if Ascii.eqb c "[" then
            match skip_ws s' with
            | d :: s'' =>
                if Ascii.eqb d "]" then Some (Arr [], s'')
                else
                  match read_items fuel' (d :: s'') with
                  | Some (vs, r) => Some (Arr vs, r)
                  | None => None
                  end
            | [] => None
            end
          else if Ascii.eqb c DQ then
            match read_string s' with
            | Some (t, r) => Some (Str t, r)
            | None => None
            end
          else if Ascii.eqb c "-" then
            match read_number s' with
            | Some (m, k, r) => Some (Num (- m) k, r)
            | None => None
            end
          else if Ascii.eqb c "t" then expect_word "true" (Bool true) (c :: s')
          else if Ascii.eqb c "f" then expect_word "false" (Bool false) (c :: s')
          else if Ascii.eqb c "n" then expect_word "null" Null (c :: s')
          else
            match read_number (c :: s') with
            | Some (m, k, r) => Some (Num m k, r)
            | None => None
            end
      end
  end

(** One or more values separated by commas, up to the closing bracket. *)
with read_items (fuel : nat) (s : list ascii)
  : option (list value * list ascii) :=
  match fuel with
  | O => None
  | S fuel' =>
      match read_value fuel' s with
      | Some (v, r) =>
          match skip_ws r with
          | c :: r' =>
              if Ascii.eqb c "]" then Some ([v], r')
              else if Ascii.eqb c "," then
                match read_items fuel' r' with
                | Some (vs, r'') => Some (v :: vs, r'')
                | None => None
                end
              else None
          | [] => None
          end
      | None => None
      end
  end

(** One or more [key: value] members, up to the closing brace. *)
with read_members (fuel : nat) (s : list ascii)
  : option (list (string * value) * list ascii) :=
  match fuel with
  | O => None
  | S fuel' =>
      match skip_ws s with
      | q :: s1 =>
          if Ascii.eqb q DQ then
            match read_string s1 with
            | Some (k, s2) =>
                match skip_ws s2 with
                | c :: s3 =>
                    if Ascii.eqb c ":" then
                      match read_value fuel' s3 with
                      | Some (v, r) =>
                          match skip_ws r with
                          | e :: r' =>
                              if Ascii.eqb e "}" then Some ([(k, v)], r')
                              else if Ascii.eqb e "," then
                                match read_members fuel' r' with
                                | Some (ms, r'') => Some ((k, v) :: ms, r'')
                                | None => None
                                end
                              else None
                          | [] => None
                          end
                      | None => None
                      end
                    else None
                | [] => None
                end
            | None => None
            end
          else None
      | [] => None
      end
  end.

(** A whole document: one value, then only white space. *)
Definition parse (doc : string) : option value :=
  let s := chars doc in
  match read_value (S (List.length s)) s with
  | Some (v, r) =>
      match skip_ws r with
      | [] => Some v
      | _ :: _ => None
      end
  | None => None
  end.

End Json.

(** ** The Playwright API as the script uses it *)

(** Python exception classes that matter to the handlers.  Playwright's
    [TimeoutError] is a subclass of its [Error]; both, like
    [AssertionError], are subclasses of [Exception].  [KeyboardInterrupt]
    and [SystemExit] derive from [BaseException] only. *)
Inductive exn_class : Type :=
| TimeoutError
| Error
| AssertionError
| OtherException
| KeyboardInterrupt
| SystemExit.

Record exn : Type := mkExn { exn_cls : exn_class; exn_str : string }.

(** [isinstance(e, Exception)] *)
Definition is_Exception (e : exn) : bool :=
  match exn_cls e with
  | KeyboardInterrupt | SystemExit => false
  | _ => true
  end.

(** The handler of every stub is [lambda route: route.fulfill(status=...,
    content_type=..., body=...)] with constant arguments: it is the
    response it fulfils with. *)
Record response : Type := fulfill {
  status : Z;
  content_type : string;
  body : string
}.

Inductive locator : Type :=
| get_by_text (text : string)
| page_locator (selector : string).

(** The calls the script makes.  Timeouts are in milliseconds; [None] is a
    timeout argument left out. *)
Inductive call : Type :=
| Enter                                    (* sync_playwright().__enter__() *)
| Exit                                     (* its __exit__() *)
| Launch (headless : bool)                 (* p.chromium.launch *)
| NewPage                                  (* browser.new_page *)
| Close                                    (* browser.close *)
| Route (pattern : string) (handler : response)
| Goto (url : string)
| Evaluate (expression : string)
| WaitForSelector (selector : string) (timeout : Z)
| Screenshot (path : string)
| Click (target : locator)
| ToBeVisible (target : locator) (timeout : option Z).

Inductive event : Type :=
| Printed (line : string)
| Called (c : call) (raised : option exn).

(** The environment: given what has happened so far and the call being
    made, the call returns ([None]) or raises. *)
Definition world : Type := list event -> call -> option exn.

Inductive result (A : Type) : Type :=
| Ok (a : A)
| Raise (e : exn).
Arguments Ok {A} a.
Arguments Raise {A} e.

(** A computation reads the world and the history and gives the events it
    adds, with its result. *)
Definition M (A : Type) : Type := world -> list event -> list event * result A.

Definition ret {A} (a : A) : M A := fun _ _ => ([], Ok a).

Definition bind {A B} (m : M A) (f : A -> M B) : M B :=
  fun w h =>
    match m w h with
    | (e1, Ok a) =>
        match f a w (h ++ e1) with
        | (e2, r) => (e1 ++ e2, r)
        end
    | (e1, Raise x) => (e1, Raise x)
    end.

Notation "m ;; k" := (bind m (fun _ => k))
  (at level 61, right associativity).

Definition raise {A} (x : exn) : M A := fun _ _ => ([], Raise x).

Definition print (line : string) : M unit := fun _ _ => ([Printed line], Ok tt).

Definition perform (c : call) : M unit :=
  fun w h =>
    match w h c with
    | None => ([Called c None], Ok tt)
    | Some x => ([Called c (Some x)], Raise x)
    end.

(** [try: m  except <catches> as e: handler e] *)
Definition try_except {A} (m : M A) (catches : exn -> bool)
    (handler : exn -> M A) : M A :=
  fun w h =>
    match m w h with
    | (e1, Ok a) => (e1, Ok a)
    | (e1, Raise x) =>
        if catches x then
          match handler x w (h ++ e1) with
          | (e2, r) => (e1 ++ e2, r)
          end
        else (e1, Raise x)
    end.

(** [try: m  finally: f]: [f] always runs; what [m] raised goes on
    afterwards unless [f] itself raises. *)
Definition try_finally {A} (m : M A) (f : M unit) : M A :=
  fun w h =>
    match m w h with
    | (e1, r1) =>
        match f w (h ++ e1) with
        | (e2, Ok _) => (e1 ++ e2, r1)
        | (e2, Raise y) => (e1 ++ e2, Raise y)
        end
    end.

(** [with cm: body], for a context manager whose [__exit__] returns
    [None], as [sync_playwright()]'s does. *)
Definition with_ {A} (enter exit : M unit) (body : M A) : M A :=
  enter ;; try_finally body exit.

(** A bare [except:] catches everything. *)
Definition anything (_ : exn) : bool := true.

(** Screenshot files the events say were written. *)
Fixpoint files_written (evs : list event) : list string :=
  match evs with
  | Called (Screenshot path) None :: evs' => path :: files_written evs'
  | _ :: evs' => files_written evs'
  | [] => []
  end.

(** Stubs the events say are installed on the page, oldest first. *)
Fixpoint registered (evs : list event) : list (string * response) :=
  match evs with
  | Called (Route pat r) None :: evs' => (pat, r) :: registered evs'
  | _ :: evs' => registered evs'
  | [] => []
  end.

(** Addresses the events say were navigated to, in order. *)
Fixpoint navigations (evs : list event) : list string :=
  match evs with
  | Called (Goto url) _ :: evs' => url :: navigations evs'
  | _ :: evs' => navigations evs'
  | [] => []
  end.

Definition is_close (ev : event) : bool :=
  match ev with
  | Called Close _ => true
  | _ => false
  end.

(** How often [browser.close()] was called. *)
Definition closes (evs : list event) : nat := List.length (filter is_close evs).

(** Playwright runs the matching handlers in the order opposite to their
    registration; every handler of this script fulfils, so the most
    recently registered stub that matches answers the request. *)
Definition intercept (stubs : list (string * response)) (url : string)
  : option response :=
  option_map snd (find (fun s => url_matches (fst s) url) (rev stubs)).

(** ** The script *)

Definition product_body : string := py
"{
            'id': 'uuid-123',
            'wooId': 123,
            'name': 'Test Product',
            'sku': 'SKU-123',
            'price': '100.00',
            'salePrice': '',
            'stockStatus': 'instock',
            'cogs': '50.00',
            'miscCosts': [{'amount': 5, 'note': 'Handling'}, {'amount': 2.50, 'note': 'Label'}],
            'type': 'simple',
            'images': []
        }".

Definition timeout_png : string := "/home/jules/verification/timeout.png".
Definition verification_png : string := "/home/jules/verification/verification.png".

(** [test_misc_costs(page)].  There is one page; the calls on it do not
    carry it. *)
Definition test_misc_costs : M unit :=
  print "Setting up mocks..." ;;
  perform (Route ".*/api/products/123$"
             (fulfill 200 "application/json" product_body)) ;;
  perform (Route ".*/api/inventory/suppliers"
             (fulfill 200 "application/json" "[]")) ;;
  perform (Route ".*/api/auth/me"
             (fulfill 200 "application/json"
                (py "{'id': 'user1', 'email': 'test@example.com', 'fullName': 'Test User'}"))) ;;
  perform (Route ".*/api/accounts$"
             (fulfill 200 "application/json"
                (py "[{'id': 'acc1', 'name': 'Test Account'}]"))) ;;
  perform (Route ".*/api/products/123/sales-history"
             (fulfill 200 "application/json"
                (py "{'sales': [], 'total': 0, 'page': 1, 'limit': 15, 'totalPages': 1}"))) ;;
  perform (Route ".*/api/inventory/products/.*/bom"
             (fulfill 200 "application/json" (py "{'items': []}"))) ;;
  perform (Route ".*/api/audits/PRODUCT/123"
             (fulfill 200 "application/json" "[]")) ;;
  perform (Route ".*/api/sync/status"
             (fulfill 200 "application/json" (py "{'active': false}"))) ;;
  perform (Route ".*/api/notifications"
             (fulfill 200 "application/json" "[]")) ;;
  perform (Route ".*/api/chat/unread-count"
             (fulfill 200 "application/json" (py "{'count': 0}"))) ;;
  print "Navigating to page..." ;;
  perform (Goto "http://localhost:5173/") ;;
  perform (Evaluate "localStorage.setItem('token', 'mock_token')") ;;
  perform (Goto "http://localhost:5173/inventory/product/123") ;;
  print "Waiting for page load..." ;;
  try_except
    (perform (WaitForSelector "text=Pricing & Values" 15000))
    anything
    (fun e =>
       print "Timeout waiting for Pricing tab. Taking screenshot." ;;
       perform (Screenshot timeout_png) ;;
       raise e) ;;
  print "Clicking Pricing tab..." ;;
  perform (Click (get_by_text "Pricing & Values")) ;;
  print "Checking for Miscellaneous Costs..." ;;
  perform (ToBeVisible (get_by_text "Miscellaneous Costs") (Some 5000%Z)) ;;
  perform (ToBeVisible (page_locator "input[value='Handling']") None) ;;
  print "Taking verification screenshot..." ;;
  perform (Screenshot verification_png) ;;
  print "Done.".

(** The [if __name__ == "__main__":] block. *)
Definition main : M unit :=
  with_ (perform Enter) (perform Exit)
    (perform (Launch true) ;;
     perform NewPage ;;
     try_finally
       (try_except test_misc_costs is_Exception
          (fun e => print ("Error: " ++ exn_str e)%string))
       (perform Close)).

(** A run of the script from the empty history. *)
Definition run (w : world) : list event * result unit := main w [].

(** Names for the calls and lines the statements below speak about. *)
Definition tab_load_wait : call := WaitForSelector "text=Pricing & Values" 15000.
Definition target_input_check : call :=
  ToBeVisible (page_locator "input[value='Handling']") None.
Definition timeout_line : string :=
  "Timeout waiting for Pricing tab. Taking screenshot.".
Definition home_url : string := "http://localhost:5173/".
Definition product_url : string := "http://localhost:5173/inventory/product/123".
Definition seed_token : call :=
  Evaluate "localStorage.setItem('token', 'mock_token')".

(** The calls made inside [test_misc_costs], as opposed to those of the
    entry point around it. *)
Definition flow_call (c : call) : bool :=
  match c with
  | Enter | Exit | Launch _ | NewPage | Close => false
  | _ => true
  end.

(** ** Worlds *)

(** The world in which every call returns. *)
Definition all_return : world := fun _ _ => None.

(** The world in which the pricing tab never shows: the wait for it times
    out. *)
Definition tab_never_loads : world :=
  fun _ c =>
    match c with
    | WaitForSelector _ _ =>
        Some (mkExn TimeoutError "Page.wait_for_selector: Timeout 15000ms exceeded.")
    | _ => None
    end.

(** The world in which the panel shows no input whose value is "Handling". *)
Definition no_handling_input : world :=
  fun _ c =>
    match c with
    | ToBeVisible (page_locator _) _ =>
        Some (mkExn AssertionError "Locator expected to be visible")
    | _ => None
    end.


(** The world in which the user interrupts the script while it waits for
    the tab: the wait raises [KeyboardInterrupt], not a timeout. *)
Definition interrupted_at_wait : world :=
  fun _ c =>
    match c with
    | WaitForSelector _ _ => Some (mkExn KeyboardInterrupt "")
    | _ => None
    end.



(** The world in which the second navigation fails. *)
Definition product_page_unreachable : world :=
  fun _ c =>
    match c with
    | Goto "http://localhost:5173/inventory/product/123" =>
        Some (mkExn Error "Page.goto: net::ERR_CONNECTION_REFUSED")
    | _ => None
    end.

(** ** The runs of the script, described from outside *)

(** What the flow does when nothing raises. *)
Definition success_events : list event := fst (test_misc_costs all_return []).

(** The same events cut at call number [k] (counted from 0 among the
    calls), which raises [e]. *)
Fixpoint fail_at (evs : list event) (k : nat) (e : exn) : list event :=
  match evs with
  | [] => []
  | Printed line :: evs' => Printed line :: fail_at evs' k e
  | Called c _ :: evs' =>
      match k with
      | O => [Called c (Some e)]
      | S k' => Called c None :: fail_at evs' k' e
      end
  end.

Definition is_call (ev : event) : bool :=
  match ev with
  | Called _ _ => true
  | Printed _ => false
  end.

(** The events before the flow starts, when the entry point gets there. *)
Definition setup : list event :=
  [Called Enter None; Called (Launch true) None; Called NewPage None].

(** What the [except Exception] clause of the entry point adds. *)
Definition handled (r : result unit) : list event :=
  match r with
  | Raise e => if is_Exception e then [Printed ("Error: " ++ exn_str e)%string] else []
  | Ok _ => []
  end.

(** The result of the entry point from the result [r] of the flow and the
    outcomes [x] of [browser.close()] and [y] of the exit of the [with]
    block. *)
Definition settle (r : result unit) (x y : option exn) : result unit :=
  match y with
  | Some e => Raise e
  | None =>
      match x with
      | Some e => Raise e
      | None =>
          match r with
          | Raise e => if is_Exception e then Ok tt else Raise e
          | Ok a => Ok a
          end
      end
  end.

(** ** Reading a run *)


(** The stubs a run installs when no registration fails. *)
Definition stubs : list (string * response) := registered success_events.

Fixpoint before_first_navigation (evs : list event) : list event :=
  match evs with
  | [] => []
  | Called (Goto _) _ :: _ => []
  | ev :: evs' => ev :: before_first_navigation evs'
  end.

(** The navigations and script evaluations of a run, in order. *)
Fixpoint page_steps (evs : list event) : list call :=
  match evs with
  | Called (Goto url) _ :: evs' => Goto url :: page_steps evs'
  | Called (Evaluate x) _ :: evs' => Evaluate x :: page_steps evs'
  | _ :: evs' => page_steps evs'
  | [] => []
  end.

(** ** The interface table of the specification *)

(** Body shapes the table uses: a value left open, the empty array, the
    constants [false] and [0], an object with exactly the listed fields in
    the listed order, an array whose items all have one shape. *)
Inductive shape : Type :=
| Anything
| EmptyArray
| IsFalse
| IsZero
| ObjectOf (fields : list (string * shape))
| ArrayOf (item : shape).

Fixpoint conforms (sh : shape) (v : Json.value) : bool :=
  match sh with
  | Anything => true
  | EmptyArray => match v with Json.Arr [] => true | _ => false end
  | IsFalse => match v with Json.Bool false => true | _ => false end
  | IsZero => match v with Json.Num 0 _ => true | _ => false end
  | ObjectOf fields =>
      match v with
      | Json.Obj members =>
          (fix each (fs : list (string * shape))
               (ms : list (string * Json.value)) : bool :=
             match fs, ms with
             | [], [] => true
             | (k, sh') :: fs', (k', v') :: ms' =>
                 String.eqb k k' && conforms sh' v' && each fs' ms'
             | _, _ => false
             end) fields members
      | _ => false
      end
  | ArrayOf item =>
      match v with
      | Json.Arr items => forallb (conforms item) items
      | _ => false
      end
  end.

Record row : Type := mkRow {
  row_path : string;
  row_status : Z;
  row_shape : shape
}.

(** The table "Route pattern | Status | Body shape" of the specification's
    section on external interfaces, row by row; the statements below
    compare the stubs of the script with it. *)
Definition interface_table : list row :=
  [ mkRow "/api/products/123" 200
      (ObjectOf [("id", Anything); ("wooId", Anything); ("name", Anything);
                 ("sku", Anything); ("price", Anything);
                 ("salePrice", Anything); ("stockStatus", Anything);
                 ("cogs", Anything);
                 ("miscCosts",
                  ArrayOf (ObjectOf [("amount", Anything); ("note", Anything)]));
                 ("type", Anything); ("images", Anything)]);
    mkRow "/api/inventory/suppliers" 200 EmptyArray;
    mkRow "/api/auth/me" 200
      (ObjectOf [("id", Anything); ("email", Anything); ("fullName", Anything)]);
    mkRow "/api/accounts" 200
      (ArrayOf (ObjectOf [("id", Anything); ("name", Anything)]));
    mkRow "/api/products/123/sales-history" 200
      (ObjectOf [("sales", EmptyArray); ("total", Anything); ("page", Anything);
                 ("limit", Anything); ("totalPages", Anything)]);
    mkRow "/api/inventory/products/*/bom" 200 (ObjectOf [("items", EmptyArray)]);
    mkRow "/api/audits/PRODUCT/123" 200 EmptyArray;
    mkRow "/api/sync/status" 200 (ObjectOf [("active", IsFalse)]);
    mkRow "/api/notifications" 200 EmptyArray;
    mkRow "/api/chat/unread-count" 200 (ObjectOf [("count", IsZero)]) ].

(** A route pattern in the notation of the table: without the leading
    [.*] and the final [$], and with [*] for an inner [.*]. *)
Fixpoint glob_chars (s : list ascii) : list ascii :=
  match s with
  | [] => []
  | c :: s' =>
      match s' with
      | [] => if Ascii.eqb c "$" then [] else [c]
      | d :: s'' =>
          if Ascii.eqb c "." && Ascii.eqb d "*"
          then "*"%char :: glob_chars s''
          else c :: glob_chars s'
      end
  end.

Definition table_notation (pat : string) : string :=
  let s := chars pat in
  string_of_list_ascii
    (glob_chars (if starts_with (chars ".*") s then skipn 2 s else s)).

(** The stub answers as the row says: same path, same status, a JSON body
    of the row's shape. *)
Definition serves (s : string * response) (rw : row) : bool :=
  String.eqb (table_notation (fst s)) (row_path rw)
  && (status (snd s) =? row_status rw)%Z
  && String.eqb (content_type (snd s)) "application/json"
  && match Json.parse (body (snd s)) with
     | Some v => conforms (row_shape rw) v
     | None => false
     end.

(** Each pattern next to the path the table gives for it. *)
Definition route_paths : list (string * string) :=
  combine (map fst stubs) (map row_path interface_table).

(** How a pattern of the script matches a URL. *)
Inductive matching : Type :=
| Suffix (path : string)                (* the URL ends with the path *)
| Substring (path : string)             (* the URL contains the path *)
| Substrings (first second : string).   (* it contains one, then the other *)

Definition satisfies (m : matching) (url : list ascii) : Prop :=
  match m with
  | Suffix path => ends_with (chars path) url = true
  | Substring path => contains (chars path) url = true
  | Substrings a b =>
      exists pre mid post, url = pre ++ chars a ++ mid ++ chars b ++ post
  end.

Definition route_matching : list (string * matching) :=
  [ (".*/api/products/123$", Suffix "/api/products/123");
    (".*/api/inventory/suppliers", Substring "/api/inventory/suppliers");
    (".*/api/auth/me", Substring "/api/auth/me");
    (".*/api/accounts$", Suffix "/api/accounts");
    (".*/api/products/123/sales-history",
     Substring "/api/products/123/sales-history");
    (".*/api/inventory/products/.*/bom",
     Substrings "/api/inventory/products/" "/bom");
    (".*/api/audits/PRODUCT/123", Substring "/api/audits/PRODUCT/123");
    (".*/api/sync/status", Substring "/api/sync/status");
    (".*/api/notifications", Substring "/api/notifications");
    (".*/api/chat/unread-count", Substring "/api/chat/unread-count") ].

(** A request for the path of a row: the path after the origin of the
    frontend, with 123 for the [*] of the BOM row. *)
Fixpoint instance_chars (s : list ascii) : list ascii :=
  match s with
  | [] => []
  | c :: s' =>
      if Ascii.eqb c "*" then chars "123" ++ instance_chars s'
      else c :: instance_chars s'
  end.

Definition sample_url (rw : row) : string :=
  ("http://localhost:5173" ++
   string_of_list_ascii (instance_chars (chars (row_path rw))))%string.

(** ** Patterns made of literal characters *)

(** The pattern made of the characters of [t], each taken literally. *)
Definition lits (t : list ascii) : Re.pattern :=
  map (fun c => Re.One (Re.AChar c)) t.

(** ** Further readings of a run *)

(** The calls a run made, in order, whatever their outcome. *)
Fixpoint calls_made (evs : list event) : list call :=
  match evs with
  | Called c _ :: evs' => c :: calls_made evs'
  | _ :: evs' => calls_made evs'
  | [] => []
  end.

(** What a run still does after the first call that raised. *)
Fixpoint after_raise (evs : list event) : list event :=
  match evs with
  | Called _ (Some _) :: evs' => evs'
  | _ :: evs' => after_raise evs'
  | [] => []
  end.

Definition is_exit (ev : event) : bool :=
  match ev with
  | Called Exit _ => true
  | _ => false
  end.

(** How often the [with] block was left. *)
Definition exits (evs : list event) : nat := List.length (filter is_exit evs).

(** The lines of a run that the handler of the entry point printed. *)
Fixpoint error_lines (evs : list event) : list string :=
  match evs with
  | Printed line :: evs' =>
      if starts_with (chars "Error: ") (chars line)
      then line :: error_lines evs'
      else error_lines evs'
  | _ :: evs' => error_lines evs'
  | [] => []
  end.

(** The world in which closing the browser fails. *)
Definition close_fails : world :=
  fun _ c =>
    match c with
    | Close => Some (mkExn Error "Browser.close: Connection closed")
    | _ => None
    end.

(** The world in which the browser cannot be launched. *)
Definition launch_fails : world :=
  fun _ c =>
    match c with
    | Launch _ => Some (mkExn Error "BrowserType.launch: Executable doesn't exist")
    | _ => None
    end.

(** * Properties *)

(** Case analysis on the outcome of the next call of a run. *)
Ltac next_call w :=
  match goal with
  | |- context [w ?h ?c] => destruct (w h c); cbn
  end.

Ltac run_cases w := cbn; repeat next_call w.

(** Naming the calls and lines of a script keeps its literals out of the
    case analysis. *)
Ltac name_calls :=
  repeat match goal with
    | |- context [perform ?c] =>
        tryif is_var c then fail else (let v := fresh "c" in remember c as v)
    | |- context [print ?l] =>
        tryif is_var l then fail else (let v := fresh "l" in remember l as v)
    end.

(** ** Every run of the flow *)

(** A run of the flow is the successful one, or it stops at one of the
    eighteen calls of the flow.  The tab-load wait is call 13: when it
    raises, the run goes on through the diagnostic handler. *)
Lemma flow_runs (w : world) (h : list event) :
  test_misc_costs w h = (success_events, Ok tt)
  \/ (exists k e, k < 18 /\ k <> 13 /\
        test_misc_costs w h = (fail_at success_events k e, Raise e))
  \/ (exists e x,
        test_misc_costs w h =
          (fail_at success_events 13 e ++
             [Printed timeout_line; Called (Screenshot timeout_png) x],
           match x with None => Raise e | Some e' => Raise e' end)).
Proof.
  remember success_events as S eqn:HS.
  unfold test_misc_costs; name_calls.
  unfold try_except, bind, perform, print, raise, anything.
  run_cases w; subst.
  all: lazymatch goal with
       | |- (_, Ok tt) = _ \/ _ => left; vm_compute; reflexivity
       | |- (?evs, Raise ?x) = _ \/ _ =>
           first
             [ lazymatch evs with
               | context [Called (WaitForSelector _ _) (Some ?e)] =>
                   lazymatch evs with
                   | context [Called (Screenshot _) ?y] =>
                       right; right; exists e, y; vm_compute; reflexivity
                   end
               end
             | right; left;
               exists (List.length (filter is_call evs) - 1), x;
               split; [vm_compute; lia | split; [vm_compute; lia | vm_compute; reflexivity]] ]
       end.
Qed.

(** Running through the seventeen calls that can fail outside the
    tab-load handler. *)
Ltac each_call k := do 18 (try destruct k as [|k]).

Ltac flow_cases_as w h H k e x :=
  let Hk := fresh "Hk" in
  let Hw := fresh "Hw" in
  destruct (flow_runs w h) as [H | [(k & e & Hk & Hw & H) | (e & x & H)]];
  [ | each_call k; try (exfalso; lia) | ].

Ltac flow_cases w h H :=
  let k := fresh "k" in
  let e := fresh "e" in
  let x := fresh "x" in
  flow_cases_as w h H k e x.

(** Membership in an explicit list of events, one element at a time. *)
Ltac in_cases H :=
  vm_compute in H;
  repeat (destruct H as [H | H]; [try discriminate H | ]);
  try contradiction H.

(** Showing an event in an explicit list. *)
Ltac in_list := vm_compute; repeat (first [left; reflexivity | right]).

(** ** Every run of the entry point *)

Lemma run_shape (w : world) :
  (exists x, run w = ([Called Enter (Some x)], Raise x))
  \/ (exists x y,
        run w = ([Called Enter None; Called (Launch true) (Some x); Called Exit y],
                 match y with Some e => Raise e | None => Raise x end))
  \/ (exists x y,
        run w = ([Called Enter None; Called (Launch true) None;
                  Called NewPage (Some x); Called Exit y],
                 match y with Some e => Raise e | None => Raise x end))
  \/ (exists evs1 r1 x y,
        test_misc_costs w setup = (evs1, r1) /\
        run w = (setup ++ evs1 ++ handled r1 ++ [Called Close x; Called Exit y],
                 settle r1 x y)).
Proof.
  unfold run, main, with_, try_finally, try_except, bind, perform, print.
  cbn -[test_misc_costs].
  destruct (w [] Enter) as [x|]; [left; eexists; reflexivity | right].
  cbn -[test_misc_costs].
  destruct (w [Called Enter None] (Launch true)) as [x|].
  { left. cbn. destruct (w _ Exit) as [y|];
      [exists x, (Some y) | exists x, None]; reflexivity. }
  right. cbn -[test_misc_costs].
  destruct (w [Called Enter None; Called (Launch true) None] NewPage) as [x|].
  { left. cbn. destruct (w _ Exit) as [y|];
      [exists x, (Some y) | exists x, None]; reflexivity. }
  right. cbn -[test_misc_costs].
  change [Called Enter None; Called (Launch true) None; Called NewPage None]
    with setup.
  destruct (test_misc_costs w setup) as [evs1 r1].
  exists evs1, r1.
  destruct r1 as [[]|e]; cbn -[setup].
  - destruct (w _ Close) as [x|]; cbn -[setup];
      destruct (w _ Exit) as [y|]; cbn -[setup];
      [exists (Some x), (Some y) | exists (Some x), None
      | exists None, (Some y) | exists None, None];
      (split; [reflexivity|]); cbn; rewrite <- ?app_assoc; reflexivity.
  - unfold handled, settle. destruct (is_Exception e); cbn -[setup];
      destruct (w _ Close) as [x|]; cbn -[setup];
      destruct (w _ Exit) as [y|]; cbn -[setup];
      [exists (Some x), (Some y) | exists (Some x), None
      | exists None, (Some y) | exists None, None
      | exists (Some x), (Some y) | exists (Some x), None
      | exists None, (Some y) | exists None, None];
      (split; [reflexivity|]); cbn; rewrite <- ?app_assoc; reflexivity.
Qed.

(** ** The tab-load timeout *)

(** C1.  In every run of the flow in which the wait for the text
    "Pricing & Values" raises a timeout error [e], the very next call is
    the screenshot to /home/jules/verification/timeout.png; when that call
    returns, the file is written and the flow ends by raising [e] itself. *)
Theorem timeout_screenshot_then_reraise (w : world) (h evs : list event)
    (r : result unit) (e : exn) :
  test_misc_costs w h = (evs, r) ->
  In (Called tab_load_wait (Some e)) evs ->
  exn_cls e = TimeoutError ->
  exists pre x,
    evs = pre ++ [Called tab_load_wait (Some e); Printed timeout_line;
                  Called (Screenshot timeout_png) x] /\
    (x = None -> files_written evs = [timeout_png] /\ r = Raise e).
Proof.
  intros Hrun Hin _.
  flow_cases w h H; rewrite H in Hrun; injection Hrun as <- <-.
  all: try (exfalso; in_cases Hin; fail).
  exists (removelast (fail_at success_events 13 e0)), x.
  in_cases Hin. injection Hin as ->.
  split; [vm_compute; reflexivity |].
  intros ->. split; vm_compute; reflexivity.
Qed.

Lemma timeout_screenshot_then_reraise_witness :
  exists pre x,
    fst (test_misc_costs tab_never_loads []) =
      pre ++ [Called tab_load_wait
                (Some (mkExn TimeoutError
                         "Page.wait_for_selector: Timeout 15000ms exceeded."));
              Printed timeout_line; Called (Screenshot timeout_png) x] /\
    (x = None ->
     files_written (fst (test_misc_costs tab_never_loads [])) = [timeout_png] /\
     snd (test_misc_costs tab_never_loads []) =
       Raise (mkExn TimeoutError
                "Page.wait_for_selector: Timeout 15000ms exceeded.")).
Proof.
  apply (timeout_screenshot_then_reraise tab_never_loads []).
  - reflexivity.
  - in_list.
  - reflexivity.
Defined.

(** ** Events of the flow inside a run of the entry point *)

Lemma closes_app (a b : list event) : closes (a ++ b) = closes a + closes b.
Proof.
  unfold closes. rewrite filter_app, length_app. reflexivity.
Qed.

Lemma handled_prints (r : result unit) (c : call) (o : option exn) :
  ~ In (Called c o) (handled r).
Proof.
  destruct r as [a|e]; cbn; [tauto|].
  destruct (is_Exception e); cbn; [|tauto].
  intros [H|[]]. discriminate H.
Qed.

(** A call of the flow seen in a run was made by the flow. *)
Lemma flow_call_in_run (c : call) (o : option exn) (evs1 : list event)
    (r1 : result unit) (x y : option exn) :
  flow_call c = true ->
  In (Called c o) (setup ++ evs1 ++ handled r1 ++ [Called Close x; Called Exit y]) ->
  In (Called c o) evs1.
Proof.
  intros Hc Hin.
  apply in_app_or in Hin. destruct Hin as [Hin|Hin].
  { cbn in Hin. repeat (destruct Hin as [Hin|Hin];
      [injection Hin as <- _; discriminate Hc|]). contradiction. }
  apply in_app_or in Hin. destruct Hin as [Hin|Hin]; [exact Hin|].
  apply in_app_or in Hin. destruct Hin as [Hin|Hin].
  { exfalso. exact (handled_prints _ _ _ Hin). }
  cbn in Hin. repeat (destruct Hin as [Hin|Hin];
    [injection Hin as <- _; discriminate Hc|]). contradiction.
Qed.

(** The flow never closes the browser. *)
Lemma flow_never_closes (w : world) (h evs : list event) (r : result unit) :
  test_misc_costs w h = (evs, r) -> closes evs = 0.
Proof.
  intros Hrun.
  flow_cases w h H; rewrite H in Hrun; injection Hrun as <- <-.
  all: vm_compute; reflexivity.
Qed.

(** Unpacking a run that got as far as the flow. *)
Ltac reached_flow w Hrun evs1 r1 x y Hflow :=
  let Hs := fresh "Hs" in
  destruct (run_shape w)
    as [(x & Hs) | [(x & y & Hs) | [(x & y & Hs) | (evs1 & r1 & x & y & Hflow & Hs)]]];
  rewrite Hs in Hrun; apply pair_equal_spec in Hrun;
  destruct Hrun as [<- <-]; clear Hs.

(** ** The browser is closed once *)





(** ** A failed assertion on the target input *)

(** C3.  In every run in which the visibility assertion on
    [input[value='Handling']] raises an assertion error [e], the next
    event is the line "Error: ..." printed by the handler of the entry
    point, then the browser is closed and the [with] block left; the run
    ends normally when these two calls return. *)
Theorem assertion_failure_reported (w : world) (evs : list event)
    (r : result unit) (e : exn) :
  run w = (evs, r) ->
  In (Called target_input_check (Some e)) evs ->
  exn_cls e = AssertionError ->
  exists pre x y,
    evs = pre ++ [Called target_input_check (Some e);
                  Printed ("Error: " ++ exn_str e)%string;
                  Called Close x; Called Exit y] /\
    (x = None -> y = None -> r = Ok tt).
Proof.
  intros Hrun Hin Hcls.
  assert (He : is_Exception e = true) by (unfold is_Exception; rewrite Hcls; reflexivity).
  reached_flow w Hrun evs1 r1 x y Hflow.
  1-3: exfalso; in_cases Hin.
  apply flow_call_in_run in Hin; [|reflexivity].
  flow_cases w setup H; rewrite H in Hflow; injection Hflow as <- <-.
  all: try (exfalso; in_cases Hin; fail).
  in_cases Hin. injection Hin as ->.
  exists (setup ++ removelast (fail_at success_events 16 e)), x, y.
  unfold handled, settle. rewrite He. split.
  - vm_compute. reflexivity.
  - intros -> ->. reflexivity.
Qed.

Lemma assertion_failure_reported_witness :
  exists pre x y,
    fst (run no_handling_input) =
      pre ++ [Called target_input_check
                (Some (mkExn AssertionError "Locator expected to be visible"));
              Printed "Error: Locator expected to be visible";
              Called Close x; Called Exit y] /\
    (x = None -> y = None -> snd (run no_handling_input) = Ok tt).
Proof.
  apply (assertion_failure_reported no_handling_input _ _
           (mkExn AssertionError "Locator expected to be visible")).
  - reflexivity.
  - in_list.
  - reflexivity.
Defined.

(** ** Exceptions that are not [Exception]s *)

(** A call other than those of the flow cannot be one of its events. *)
Ltac not_a_flow_call Hin Hc :=
  exfalso; vm_compute in Hin;
  repeat (destruct Hin as [Hin | Hin];
          [first [discriminate Hin | injection Hin as <- _; discriminate Hc] | ]);
  contradiction Hin.





(** ** Which failures take which path *)

(** C5, as stated, fails: the diagnostic screenshot is taken although the
    exception raised by the tab-load wait is not a timeout. *)
Lemma screenshot_path_not_only_for_timeout :
  ~ (forall (w : world) (evs : list event) (r : result unit) (x : option exn),
        run w = (evs, r) ->
        In (Called (Screenshot timeout_png) x) evs ->
        exists e, In (Called tab_load_wait (Some e)) evs /\
                  exn_cls e = TimeoutError).
Proof.
  intros Hclaim.
  destruct (Hclaim interrupted_at_wait _ _ None eq_refl) as (e & Hin & Hcls).
  - in_list.
  - in_cases Hin. injection Hin as <-. discriminate Hcls.
Qed.

(** C5, amended.  The screenshot to timeout.png is taken exactly in the
    runs in which the tab-load wait raises, whatever it raises.  An
    [Exception] raised by any other call of the flow (the diagnostic
    screenshot apart) is followed at once by the line "Error: ..." of the
    entry point, then by [browser.close()] and the exit of the [with]
    block, and the run ends normally when these two return. *)
Theorem two_error_paths (w : world) (evs : list event) (r : result unit) :
  run w = (evs, r) ->
  ((exists x, In (Called (Screenshot timeout_png) x) evs) <->
   (exists e, In (Called tab_load_wait (Some e)) evs)) /\
  (forall c e,
      In (Called c (Some e)) evs ->
      flow_call c = true ->
      c <> tab_load_wait ->
      c <> Screenshot timeout_png ->
      is_Exception e = true ->
      exists pre x y,
        evs = pre ++ [Called c (Some e); Printed ("Error: " ++ exn_str e)%string;
                      Called Close x; Called Exit y] /\
        (x = None -> y = None -> r = Ok tt)).
Proof.
  intros Hrun.
  reached_flow w Hrun evs1 r1 x y Hflow.
  1-3: split;
    [ split; intros [z Hin]; exfalso; in_cases Hin
    | intros c e Hin Hc; not_a_flow_call Hin Hc ].
  split.
  - split; intros [z Hin]; (apply flow_call_in_run in Hin; [|reflexivity]).
    + flow_cases_as w setup H k e0 x0;
        rewrite H in Hflow; apply pair_equal_spec in Hflow;
        destruct Hflow as [<- <-].
      all: try (exfalso; in_cases Hin; fail).
      exists e0. in_list.
    + flow_cases_as w setup H k e0 x0;
        rewrite H in Hflow; apply pair_equal_spec in Hflow;
        destruct Hflow as [<- <-].
      all: try (exfalso; in_cases Hin; fail).
      exists x0. in_list.
  - intros c e Hin Hc Hwait Hshot He.
    apply flow_call_in_run in Hin; [|exact Hc].
    flow_cases_as w setup H k e0 x0;
      rewrite H in Hflow; apply pair_equal_spec in Hflow;
      destruct Hflow as [<- <-].
    all: try (exfalso; in_cases Hin; fail).
    1-17: in_cases Hin; injection Hin as <- ->;
      match goal with
      | |- context [fail_at success_events ?k ?e'] =>
          exists (setup ++ removelast (fail_at success_events k e')), x, y
      end;
      unfold handled, settle; rewrite He;
      (split; [vm_compute; reflexivity | intros -> ->; reflexivity]).
    exfalso. in_cases Hin.
    + injection Hin as <- _. apply Hwait. reflexivity.
    + injection Hin as <- _. apply Hshot. reflexivity.
Qed.

Lemma two_error_paths_witness :
  ((exists x, In (Called (Screenshot timeout_png) x)
                (fst (run product_page_unreachable))) <->
   (exists e, In (Called tab_load_wait (Some e))
                (fst (run product_page_unreachable)))) /\
  (forall c e,
      In (Called c (Some e)) (fst (run product_page_unreachable)) ->
      flow_call c = true ->
      c <> tab_load_wait ->
      c <> Screenshot timeout_png ->
      is_Exception e = true ->
      exists pre x y,
        fst (run product_page_unreachable) =
          pre ++ [Called c (Some e); Printed ("Error: " ++ exn_str e)%string;
                  Called Close x; Called Exit y] /\
        (x = None -> y = None -> snd (run product_page_unreachable) = Ok tt)).
Proof.
  apply (two_error_paths product_page_unreachable).
  reflexivity.
Defined.

(** ** The successful run *)

(** C7.  When every call returns (the frontend shows what is waited for,
    the assertions hold), the script ends normally and the one file it
    writes is /home/jules/verification/verification.png. *)
Theorem success_writes_verification_png (w : world) :
  (forall h c, w h c = None) ->
  exists evs,
    run w = (evs, Ok tt) /\
    files_written evs = [verification_png].
Proof.
  intros Hall.
  exists (fst (run all_return)).
  split; [|vm_compute; reflexivity].
  transitivity (run all_return); [|vm_compute; reflexivity].
  unfold run, main, with_, test_misc_costs; name_calls.
  unfold try_finally, try_except, bind, perform, print, raise, all_return.
  cbn. repeat (rewrite Hall; cbn). reflexivity.
Qed.

Lemma success_writes_verification_png_witness :
  exists evs,
    run all_return = (evs, Ok tt) /\
    files_written evs = [verification_png].
Proof.
  apply (success_writes_verification_png all_return).
  intros h c. reflexivity.
Defined.

(** ** Timeouts of the waits *)



(** ** Registration comes before navigation *)

(** C9.  There are ten stubs, with ten different patterns.  A run never
    registers anything but an initial part of them, in order; in a run that
    navigates at all, all ten are registered before the first navigation
    and none after it.  The page is taken to http://localhost:5173/, the
    token is put into local storage, and the page is taken to
    http://localhost:5173/inventory/product/123, in this order. *)
Theorem stubs_registered_before_navigation (w : world) (h evs : list event)
    (r : result unit) :
  test_misc_costs w h = (evs, r) ->
  List.length stubs = 10 /\
  NoDup (map fst stubs) /\
  (exists n, registered evs = firstn n stubs) /\
  (navigations evs <> [] ->
   registered (before_first_navigation evs) = stubs /\ registered evs = stubs) /\
  (exists n, page_steps evs = firstn n [Goto home_url; seed_token; Goto product_url]) /\
  (r = Ok tt -> page_steps evs = [Goto home_url; seed_token; Goto product_url]).
Proof.
  intros Hrun.
  split; [reflexivity|].
  split.
  { vm_compute. repeat (constructor; [intros Hin; in_cases Hin|]). constructor. }
  flow_cases_as w h H k e0 x0; rewrite H in Hrun;
    apply pair_equal_spec in Hrun; destruct Hrun as [<- <-].
  all: split;
    [ match goal with
      | |- exists n, registered ?l = _ =>
          exists (List.length (registered l)); vm_compute; reflexivity
      end | ].
  all: split;
    [ first [ intros _; split; vm_compute; reflexivity
            | intros Hnav; exfalso; apply Hnav; vm_compute; reflexivity ] | ].
  all: split;
    [ match goal with
      | |- exists n, page_steps ?l = _ =>
          exists (List.length (page_steps l)); vm_compute; reflexivity
      end | ].
  all: try (intros Hr; discriminate Hr).
  all: try (intros Hr; destruct x0; discriminate Hr).
  intros _. vm_compute. reflexivity.
Qed.

Lemma stubs_registered_before_navigation_witness :
  List.length stubs = 10 /\
  NoDup (map fst stubs) /\
  (exists n, registered (fst (test_misc_costs tab_never_loads [])) = firstn n stubs) /\
  (navigations (fst (test_misc_costs tab_never_loads [])) <> [] ->
   registered (before_first_navigation (fst (test_misc_costs tab_never_loads []))) = stubs /\
   registered (fst (test_misc_costs tab_never_loads [])) = stubs) /\
  (exists n, page_steps (fst (test_misc_costs tab_never_loads [])) =
             firstn n [Goto home_url; seed_token; Goto product_url]) /\
  (snd (test_misc_costs tab_never_loads []) = Ok tt ->
   page_steps (fst (test_misc_costs tab_never_loads [])) =
     [Goto home_url; seed_token; Goto product_url]).
Proof.
  apply (stubs_registered_before_navigation tab_never_loads []).
  reflexivity.
Defined.

(** ** How the route patterns match *)

Lemma starts_with_iff (t s : list ascii) :
  starts_with t s = true <-> exists post, s = t ++ post.
Proof.
  revert s. induction t as [|a t IH]; intros s; cbn.
  - split; [intros _; exists s; reflexivity | reflexivity].
  - destruct s as [|b s].
    + split; [discriminate | intros [post H]; discriminate H].
    + rewrite andb_true_iff, Ascii.eqb_eq, IH. split.
      * intros [-> [post ->]]. exists post. reflexivity.
      * intros [post H]. injection H as -> ->. split; [reflexivity|].
        exists post. reflexivity.
Qed.

Lemma contains_iff (t s : list ascii) :
  contains t s = true <-> exists pre post, s = pre ++ t ++ post.
Proof.
  induction s as [|b s IH].
  - cbn. rewrite orb_false_r, starts_with_iff. split.
    + intros [post H]. exists [], post. exact H.
    + intros (pre & post & H). symmetry in H.
      apply app_eq_nil in H. destruct H as [_ H]. exists post.
      symmetry. exact H.
  - cbn [contains]. rewrite orb_true_iff, starts_with_iff, IH. split.
    + intros [[post H] | (pre & post & H)].
      * exists [], post. exact H.
      * exists (b :: pre), post. rewrite H. reflexivity.
    + intros (pre & post & H). destruct pre as [|c pre].
      * left. exists post. exact H.
      * right. injection H as _ H. exists pre, post. exact H.
Qed.

Lemma ends_with_iff (t s : list ascii) :
  ends_with t s = true <-> exists pre, s = pre ++ t.
Proof.
  unfold ends_with. rewrite starts_with_iff. split.
  - intros [post H]. exists (rev post).
    rewrite <- (rev_involutive s), H, rev_app_distr, rev_involutive.
    reflexivity.
  - intros [pre ->]. exists (rev pre). apply rev_app_distr.
Qed.

Lemma match_star_unfold (a : Re.atom) (p : Re.pattern) (s : list ascii) :
  Re.match_here (Re.Star a :: p) s =
    Re.match_here p s ||
    match s with
    | c :: s' => Re.accepts a c && Re.match_here (Re.Star a :: p) s'
    | [] => false
    end.
Proof.
  destruct s; reflexivity.
Qed.

(** Literal characters match a prefix equal to them. *)
Lemma match_lits (t : list ascii) (p : Re.pattern) (s : list ascii) :
  Re.match_here (lits t ++ p) s = true <->
  exists rest, s = t ++ rest /\ Re.match_here p rest = true.
Proof.
  revert s. induction t as [|a t IH]; intros s; cbn [lits map app].
  - split; [intros H; exists s; split; [reflexivity | exact H]|].
    intros (rest & -> & H). exact H.
  - cbn [Re.match_here]. destruct s as [|b s].
    + split; [discriminate | intros (rest & H & _); discriminate H].
    + cbn [Re.accepts]. rewrite andb_true_iff, Ascii.eqb_eq.
      fold (lits t). rewrite IH. split.
      * intros [-> (rest & -> & H)]. exists rest. split; [reflexivity | exact H].
      * intros (rest & H & Hm). injection H as -> ->.
        split; [reflexivity|]. exists rest. split; [reflexivity | exact Hm].
Qed.

(** [.*] takes any run of characters without a line feed. *)
Lemma match_any_star (p : Re.pattern) (s : list ascii) :
  Re.match_here (Re.Star Re.AAny :: p) s = true <->
  exists mid rest, s = mid ++ rest /\ ~ In LF mid /\ Re.match_here p rest = true.
Proof.
  induction s as [|b s IH]; rewrite match_star_unfold.
  - rewrite orb_false_r. split.
    + intros H. exists [], []. repeat split; [intros [] | exact H].
    + intros (mid & rest & H & _ & Hm). symmetry in H.
      apply app_eq_nil in H. destruct H as [_ ->]. exact Hm.
  - rewrite orb_true_iff, andb_true_iff, IH. cbn [Re.accepts].
    rewrite negb_true_iff, Ascii.eqb_neq. split.
    + intros [H | [Hb (mid & rest & -> & Hmid & Hm)]].
      * exists [], (b :: s). repeat split; [intros [] | exact H].
      * exists (b :: mid), rest. repeat split; [|exact Hm].
        intros [Heq | Hin]; [exact (Hb Heq) | exact (Hmid Hin)].
    + intros (mid & rest & H & Hmid & Hm). destruct mid as [|c mid].
      * left. cbn in H. rewrite H. exact Hm.
      * right. injection H as -> ->. split.
        -- intros Heq. apply Hmid. left. exact Heq.
        -- exists mid, rest. repeat split; [|exact Hm].
           intros Hin. apply Hmid. right. exact Hin.
Qed.

Lemma search_iff (p : Re.pattern) (s : list ascii) :
  Re.search p s = true <->
  exists pre rest, s = pre ++ rest /\ Re.match_here p rest = true.
Proof.
  induction s as [|b s IH]; cbn [Re.search]; rewrite orb_true_iff.
  - split.
    + intros [H | H]; [|discriminate H]. exists [], []. split; [reflexivity | exact H].
    + intros (pre & rest & H & Hm). left. symmetry in H.
      apply app_eq_nil in H. destruct H as [_ ->]. exact Hm.
  - rewrite IH. split.
    + intros [H | (pre & rest & -> & Hm)].
      * exists [], (b :: s). split; [reflexivity | exact H].
      * exists (b :: pre), rest. split; [reflexivity | exact Hm].
    + intros (pre & rest & H & Hm). destruct pre as [|c pre].
      * left. cbn in H. rewrite H. exact Hm.
      * right. injection H as _ ->. exists pre, rest. split; [reflexivity | exact Hm].
Qed.

(** Under [search], a leading [.*] changes nothing. *)
Lemma search_leading_star (p : Re.pattern) (s : list ascii) :
  Re.search (Re.Star Re.AAny :: p) s = true <->
  exists pre rest, s = pre ++ rest /\ Re.match_here p rest = true.
Proof.
  rewrite search_iff. split.
  - intros (pre & rest & -> & Hm). apply match_any_star in Hm.
    destruct Hm as (mid & rest' & -> & _ & Hm).
    exists (pre ++ mid), rest'. rewrite app_assoc. split; [reflexivity | exact Hm].
  - intros (pre & rest & -> & Hm). exists pre, rest. split; [reflexivity|].
    rewrite match_star_unfold, Hm. reflexivity.
Qed.

(** [.*path]: the subject contains [path]. *)
Lemma search_unanchored (t s : list ascii) :
  Re.search (Re.Star Re.AAny :: lits t) s = true <-> contains t s = true.
Proof.
  rewrite search_leading_star, contains_iff. split.
  - intros (pre & rest & -> & Hm).
    rewrite <- (app_nil_r (lits t)) in Hm. apply match_lits in Hm.
    destruct Hm as (post & -> & _). exists pre, post. reflexivity.
  - intros (pre & post & ->). exists pre, (t ++ post). split; [reflexivity|].
    rewrite <- (app_nil_r (lits t)). apply match_lits.
    exists post. split; reflexivity.
Qed.

Lemma at_end_iff (s : list ascii) :
  Re.at_end s = true <-> s = [] \/ s = [LF].
Proof.
  destruct s as [|c [|d s]]; cbn.
  - split; [left; reflexivity | reflexivity].
  - rewrite Ascii.eqb_eq. split.
    + intros ->. right. reflexivity.
    + intros [H | H]; [discriminate H | injection H as ->; reflexivity].
  - split; [discriminate | intros [H | H]; discriminate H].
Qed.

(** [.*path$]: the subject ends with [path], or with [path] and one line
    feed. *)
Lemma search_anchored (t s : list ascii) :
  Re.search (Re.Star Re.AAny :: lits t ++ [Re.End]) s = true <->
  ends_with t s = true \/ ends_with (t ++ [LF]) s = true.
Proof.
  rewrite search_leading_star, !ends_with_iff. split.
  - intros (pre & rest & -> & Hm). apply match_lits in Hm.
    destruct Hm as (post & -> & Hm). cbn in Hm.
    rewrite andb_true_r in Hm. apply at_end_iff in Hm.
    destruct Hm as [-> | ->].
    + left. exists pre. rewrite app_nil_r. reflexivity.
    + right. exists pre. reflexivity.
  - intros [[pre ->] | [pre ->]].
    + exists pre, t. split; [reflexivity|]. apply match_lits.
      exists []. split; [rewrite app_nil_r; reflexivity | reflexivity].
    + exists pre, (t ++ [LF]). split; [reflexivity|]. apply match_lits.
      exists [LF]. split; reflexivity.
Qed.

(** [.*first.*second]: [first], then on the same line [second]. *)
Lemma search_two_parts (a b s : list ascii) :
  Re.search (Re.Star Re.AAny :: lits a ++ Re.Star Re.AAny :: lits b) s = true <->
  exists pre mid post, s = pre ++ a ++ mid ++ b ++ post /\ ~ In LF mid.
Proof.
  rewrite search_leading_star. split.
  - intros (pre & rest & -> & Hm). apply match_lits in Hm.
    destruct Hm as (rest' & -> & Hm). apply match_any_star in Hm.
    destruct Hm as (mid & rest'' & -> & Hmid & Hm).
    rewrite <- (app_nil_r (lits b)) in Hm. apply match_lits in Hm.
    destruct Hm as (post & -> & _).
    exists pre, mid, post. split; [reflexivity | exact Hmid].
  - intros (pre & mid & post & -> & Hmid).
    exists pre, (a ++ mid ++ b ++ post). split; [reflexivity|].
    apply match_lits. exists (mid ++ b ++ post). split; [reflexivity|].
    apply match_any_star. exists mid, (b ++ post).
    split; [reflexivity|]. split; [exact Hmid|].
    rewrite <- (app_nil_r (lits b)). apply match_lits.
    exists post. split; reflexivity.
Qed.

Lemma url_matches_unanchored (path url : string) :
  Re.compile (".*" ++ path) = Some (Re.Star Re.AAny :: lits (chars path)) ->
  url_matches (".*" ++ path) url = true <-> contains (chars path) (chars url) = true.
Proof.
  intros Hc. unfold url_matches. rewrite Hc. apply search_unanchored.
Qed.

Lemma url_matches_anchored (path url : string) :
  Re.compile (".*" ++ path ++ "$") =
    Some (Re.Star Re.AAny :: lits (chars path) ++ [Re.End]) ->
  no_newline (chars url) ->
  url_matches (".*" ++ path ++ "$") url = true <->
  ends_with (chars path) (chars url) = true.
Proof.
  intros Hc Hnl. unfold url_matches. rewrite Hc, search_anchored. split.
  - intros [H | H]; [exact H|]. exfalso.
    apply ends_with_iff in H. destruct H as [pre H].
    apply Hnl. rewrite H. apply in_or_app. right.
    apply in_or_app. right. left. reflexivity.
  - intros H. left. exact H.
Qed.

Lemma url_matches_two_parts (a b url : string) :
  Re.compile (".*" ++ a ++ ".*" ++ b) =
    Some (Re.Star Re.AAny :: lits (chars a) ++ Re.Star Re.AAny :: lits (chars b)) ->
  no_newline (chars url) ->
  url_matches (".*" ++ a ++ ".*" ++ b) url = true <->
  exists pre mid post, chars url = pre ++ chars a ++ mid ++ chars b ++ post.
Proof.
  intros Hc Hnl. unfold url_matches. rewrite Hc, search_two_parts. split.
  - intros (pre & mid & post & H & _). exists pre, mid, post. exact H.
  - intros (pre & mid & post & H). exists pre, mid, post. split; [exact H|].
    intros Hin. apply Hnl. rewrite H. apply in_or_app. right.
    apply in_or_app. right. apply in_or_app. left. exact Hin.
Qed.

(** C6, as stated, fails: the notifications stub matches a URL that only
    contains its path and ends otherwise. *)
Lemma suffix_matching_fails :
  ~ (forall pat path, In (pat, path) route_paths ->
       forall url, url_matches pat url = true <->
                   ends_with (chars path) (chars url) = true).
Proof.
  intros Hclaim.
  assert (Hin : In (".*/api/notifications", "/api/notifications") route_paths)
    by in_list.
  destruct (Hclaim _ _ Hin "http://localhost:5173/api/notifications/42")
    as [H _].
  specialize (H eq_refl). vm_compute in H. discriminate H.
Qed.

(** C6, amended.  The patterns of the ten stubs are those listed in
    [route_matching].  For a URL without a line feed: the two patterns
    that end in [$] (for /api/products/123 and /api/accounts) match exactly
    when the URL ends with the path; the pattern of the BOM stub matches
    exactly when the URL contains /api/inventory/products/ and later /bom;
    each of the other seven matches exactly when the URL contains the path
    anywhere.  So a URL that ends with /api/products/123/sales-history is
    matched by the sales-history stub and not by the one for
    /api/products/123. *)
Theorem route_patterns_match (url : string) :
  no_newline (chars url) ->
  map fst route_matching = map fst stubs /\
  (forall pat m, In (pat, m) route_matching ->
     (url_matches pat url = true <-> satisfies m (chars url))) /\
  (ends_with (chars "/api/products/123/sales-history") (chars url) = true ->
   url_matches ".*/api/products/123/sales-history" url = true /\
   url_matches ".*/api/products/123$" url = false).
Proof.
  intros Hnl. split; [reflexivity|]. split.
  - intros pat m Hin. unfold route_matching in Hin. cbn [In] in Hin.
    repeat (destruct Hin as [Hin | Hin];
            [injection Hin as <- <-; cbn [satisfies]|]); [..|contradiction].
    + apply (url_matches_anchored "/api/products/123"); [reflexivity | exact Hnl].
    + apply (url_matches_unanchored "/api/inventory/suppliers"); reflexivity.
    + apply (url_matches_unanchored "/api/auth/me"); reflexivity.
    + apply (url_matches_anchored "/api/accounts"); [reflexivity | exact Hnl].
    + apply (url_matches_unanchored "/api/products/123/sales-history"); reflexivity.
    + apply (url_matches_two_parts "/api/inventory/products/" "/bom");
        [reflexivity | exact Hnl].
    + apply (url_matches_unanchored "/api/audits/PRODUCT/123"); reflexivity.
    + apply (url_matches_unanchored "/api/sync/status"); reflexivity.
    + apply (url_matches_unanchored "/api/notifications"); reflexivity.
    + apply (url_matches_unanchored "/api/chat/unread-count"); reflexivity.
  - intros Hend. split.
    + apply (url_matches_unanchored "/api/products/123/sales-history");
        [reflexivity|].
      apply contains_iff. apply ends_with_iff in Hend. destruct Hend as [pre H].
      exists pre, []. rewrite app_nil_r. exact H.
    + destruct (url_matches ".*/api/products/123$" url) eqn:Hm; [|reflexivity].
      exfalso.
      apply (url_matches_anchored "/api/products/123") in Hm;
        [|reflexivity | exact Hnl].
      apply ends_with_iff in Hend, Hm.
      destruct Hend as [p1 H1]. destruct Hm as [p2 H2].
      rewrite H1 in H2. apply (f_equal (@rev ascii)) in H2.
      rewrite !rev_app_distr in H2.
      cbn [rev chars list_ascii_of_string app] in H2.
      discriminate H2.
Qed.

Lemma route_patterns_match_witness :
  map fst route_matching = map fst stubs /\
  (forall pat m, In (pat, m) route_matching ->
     (url_matches pat "http://localhost:5173/api/products/123/sales-history" = true <->
      satisfies m (chars "http://localhost:5173/api/products/123/sales-history"))) /\
  (ends_with (chars "/api/products/123/sales-history")
     (chars "http://localhost:5173/api/products/123/sales-history") = true ->
   url_matches ".*/api/products/123/sales-history"
     "http://localhost:5173/api/products/123/sales-history" = true /\
   url_matches ".*/api/products/123$"
     "http://localhost:5173/api/products/123/sales-history" = false).
Proof.
  apply (route_patterns_match "http://localhost:5173/api/products/123/sales-history").
  intros Hin. in_cases Hin.
Defined.

(** ** The stubs and the interface table *)

Lemma stub_has_row (s : string * response) :
  In s stubs ->
  exists rw, In (s, rw) (combine stubs interface_table) /\ serves s rw = true.
Proof.
  intros Hin. unfold stubs in Hin. vm_compute in Hin.
  repeat (destruct Hin as [Hin | Hin];
          [subst s; eexists; split; [in_list | vm_compute; reflexivity]|]).
  contradiction.
Qed.

Lemma serves_spec (s : string * response) (rw : row) :
  serves s rw = true ->
  table_notation (fst s) = row_path rw /\
  status (snd s) = row_status rw /\
  content_type (snd s) = "application/json" /\
  exists v, Json.parse (body (snd s)) = Some v /\ conforms (row_shape rw) v = true.
Proof.
  unfold serves. rewrite !andb_true_iff, !String.eqb_eq, Z.eqb_eq.
  intros [[[Hp Hs] Hc] Hb]. repeat split; try assumption.
  destruct (Json.parse (body (snd s))) as [v|]; [|discriminate Hb].
  exists v. split; [reflexivity | exact Hb].
Qed.

(** C2.  A run registers the ten stubs [stubs] and nothing else (an
    initial part of them when a registration fails, all of them when the
    run ends normally).  They are, row by row, the ten rows of the
    interface table: same path, status 200, a JSON body of the shape the
    row gives.  A request whose URL matches a pattern is answered by a stub
    whose pattern matches it, with status 200 and a body of the shape of
    that stub's row.  A request for the path of a row matches the pattern
    of that row's stub only, and that stub answers it.  The four bodies the
    claim singles out are as it says. *)
Theorem stubs_serve_interface_table :
  (forall w h evs r,
      test_misc_costs w h = (evs, r) ->
      (exists n, registered evs = firstn n stubs) /\
      (r = Ok tt -> registered evs = stubs)) /\
  List.length stubs = 10 /\
  List.length interface_table = 10 /\
  (forall rw, In rw interface_table -> row_status rw = 200%Z) /\
  (forall s rw, In (s, rw) (combine stubs interface_table) ->
     table_notation (fst s) = row_path rw /\
     status (snd s) = 200%Z /\
     exists v, Json.parse (body (snd s)) = Some v /\
               conforms (row_shape rw) v = true) /\
  (forall url,
      (exists s, In s stubs /\ url_matches (fst s) url = true) ->
      exists s rw,
        intercept stubs url = Some (snd s) /\
        In (s, rw) (combine stubs interface_table) /\
        url_matches (fst s) url = true /\
        status (snd s) = 200%Z /\
        exists v, Json.parse (body (snd s)) = Some v /\
                  conforms (row_shape rw) v = true) /\
  map (fun rw => filter (fun s => url_matches (fst s) (sample_url rw)) stubs)
    interface_table = map (fun s => [s]) stubs /\
  map (fun rw => intercept stubs (sample_url rw)) interface_table =
    map (fun s => Some (snd s)) stubs /\
  (option_map (fun r => (status r, Json.parse (body r)))
     (intercept stubs "http://localhost:5173/api/products/123") =
   Some (200%Z,
         Some (Json.Obj
                 [("id", Json.Str "uuid-123"); ("wooId", Json.Num 123 0);
                  ("name", Json.Str "Test Product"); ("sku", Json.Str "SKU-123");
                  ("price", Json.Str "100.00"); ("salePrice", Json.Str "");
                  ("stockStatus", Json.Str "instock"); ("cogs", Json.Str "50.00");
                  ("miscCosts",
                   Json.Arr
                     [Json.Obj [("amount", Json.Num 5 0); ("note", Json.Str "Handling")];
                      Json.Obj [("amount", Json.Num 250 2); ("note", Json.Str "Label")]]);
                  ("type", Json.Str "simple"); ("images", Json.Arr [])]))) /\
  (option_map (fun r => (status r, Json.parse (body r)))
     (intercept stubs "http://localhost:5173/api/inventory/suppliers") =
   Some (200%Z, Some (Json.Arr []))) /\
  (option_map (fun r => (status r, Json.parse (body r)))
     (intercept stubs "http://localhost:5173/api/sync/status") =
   Some (200%Z, Some (Json.Obj [("active", Json.Bool false)]))) /\
  (option_map (fun r => (status r, Json.parse (body r)))
     (intercept stubs "http://localhost:5173/api/chat/unread-count") =
   Some (200%Z, Some (Json.Obj [("count", Json.Num 0 0)]))).
Proof.
  assert (Hrows : forall rw, In rw interface_table -> row_status rw = 200%Z).
  { intros rw Hin. unfold interface_table in Hin. cbn [In] in Hin.
    repeat (destruct Hin as [Hin | Hin]; [subst rw; reflexivity|]).
    contradiction. }
  assert (Hpairs : forall s rw, In (s, rw) (combine stubs interface_table) ->
            serves s rw = true).
  { intros s rw Hin.
    destruct (stub_has_row s (in_combine_l _ _ _ _ Hin)) as (rw' & Hin' & Hs).
    assert (Hnd : NoDup (map fst (combine stubs interface_table))).
    { vm_compute. repeat (constructor; [intros H; in_cases H|]). constructor. }
    assert (rw' = rw) as <-; [|exact Hs].
    clear Hs. revert Hin Hin' Hnd.
    generalize (combine stubs interface_table). intros l.
    induction l as [|[s0 r0] l IH]; cbn; [contradiction|].
    intros [H1 | H1] [H2 | H2] Hnd.
    - congruence.
    - exfalso. inversion Hnd as [|? ? Hn _]. apply Hn.
      injection H1 as -> _. apply (in_map fst) in H2. exact H2.
    - exfalso. inversion Hnd as [|? ? Hn _]. apply Hn.
      injection H2 as -> _. apply (in_map fst) in H1. exact H1.
    - inversion Hnd. apply IH; assumption. }
  split.
  { intros w h evs r Hrun.
    flow_cases_as w h H k e0 x0; rewrite H in Hrun;
      apply pair_equal_spec in Hrun; destruct Hrun as [<- <-].
    all: split;
      [ match goal with
        | |- exists n, registered ?l = _ =>
            exists (List.length (registered l)); vm_compute; reflexivity
        end | ].
    all: try (intros Hr; discriminate Hr).
    all: try (intros Hr; destruct x0; discriminate Hr).
    intros _. reflexivity. }
  split; [reflexivity|]. split; [reflexivity|]. split; [exact Hrows|].
  split.
  { intros s rw Hin. destruct (serves_spec s rw (Hpairs s rw Hin)) as (Hp & Hs & _ & Hv).
    split; [exact Hp|]. split; [|exact Hv].
    rewrite Hs. apply Hrows. exact (in_combine_r _ _ _ _ Hin). }
  split.
  { intros url (s & Hin & Hm). unfold intercept.
    destruct (find (fun s0 => url_matches (fst s0) url) (rev stubs)) as [s'|] eqn:Hf.
    - apply find_some in Hf. destruct Hf as [Hin' Hm'].
      apply in_rev in Hin'.
      destruct (stub_has_row s' Hin') as (rw & Hrw & Hs).
      destruct (serves_spec s' rw Hs) as (_ & Hst & _ & Hv).
      exists s', rw. split; [reflexivity|]. split; [exact Hrw|].
      split; [exact Hm'|]. split; [|exact Hv].
      rewrite Hst. apply Hrows. exact (in_combine_r _ _ _ _ Hrw).
    - exfalso. apply in_rev in Hin.
      pose proof (find_none _ _ Hf s Hin) as Hn. cbn in Hn.
      rewrite Hm in Hn. discriminate Hn. }
  split; [vm_compute; reflexivity|].
  split; [vm_compute; reflexivity|].
  repeat split; vm_compute; reflexivity.
Qed.

Lemma stubs_serve_interface_table_witness :
  exists s rw,
    intercept stubs "http://localhost:5173/api/auth/me" = Some (snd s) /\
    In (s, rw) (combine stubs interface_table) /\
    url_matches (fst s) "http://localhost:5173/api/auth/me" = true /\
    status (snd s) = 200%Z /\
    exists v, Json.parse (body (snd s)) = Some v /\
              conforms (row_shape rw) v = true.
Proof.
  destruct stubs_serve_interface_table as (_ & _ & _ & _ & _ & H & _).
  apply (H "http://localhost:5173/api/auth/me").
  exists (".*/api/auth/me",
          fulfill 200 "application/json"
            (py "{'id': 'user1', 'email': 'test@example.com', 'fullName': 'Test User'}")).
  split; [in_list | reflexivity].
Defined.

(** * Further properties of the script *)

(** X1.  The flow prints "Done." exactly when it ends normally, and
    verification.png is written exactly when it ends normally. *)
Theorem done_iff_flow_succeeds (w : world) (h evs : list event)
    (r : result unit) :
  test_misc_costs w h = (evs, r) ->
  (In (Printed "Done.") evs <-> r = Ok tt) /\
  (In verification_png (files_written evs) <-> r = Ok tt).
Proof.
  intros Hrun.
  flow_cases_as w h H k e0 x0; rewrite H in Hrun;
    apply pair_equal_spec in Hrun; destruct Hrun as [<- <-].
  all: split; split; intros Hx.
  all: try discriminate Hx.
  all: try (destruct x0; discriminate Hx).
  all: try reflexivity.
  all: try (in_list; fail).
  all: exfalso; try destruct x0; in_cases Hx.
Qed.

Lemma done_iff_flow_succeeds_witness :
  (In (Printed "Done.") (fst (test_misc_costs tab_never_loads [])) <->
   snd (test_misc_costs tab_never_loads []) = Ok tt) /\
  (In verification_png (files_written (fst (test_misc_costs tab_never_loads []))) <->
   snd (test_misc_costs tab_never_loads []) = Ok tt).
Proof.
  apply (done_iff_flow_succeeds tab_never_loads []). reflexivity.
Defined.

(** X2.  The verification screenshot is taken only at the end of a flow
    in which all ten stubs were registered and the tab-load wait, the click
    and both visibility assertions returned; no other screenshot is
    written in such a run. *)
Theorem verification_screenshot_after_checks (w : world) (h evs : list event)
    (r : result unit) (o : option exn) :
  test_misc_costs w h = (evs, r) ->
  In (Called (Screenshot verification_png) o) evs ->
  registered evs = stubs /\
  In (Called tab_load_wait None) evs /\
  In (Called (Click (get_by_text "Pricing & Values")) None) evs /\
  In (Called (ToBeVisible (get_by_text "Miscellaneous Costs") (Some 5000%Z)) None) evs /\
  In (Called target_input_check None) evs /\
  files_written evs = match o with None => [verification_png] | Some _ => [] end.
Proof.
  intros Hrun Hin.
  flow_cases_as w h H k e0 x0; rewrite H in Hrun;
    apply pair_equal_spec in Hrun; destruct Hrun as [<- <-].
  all: try (exfalso; in_cases Hin; fail).
  all: in_cases Hin; injection Hin as <-.
  all: split; [vm_compute; reflexivity|].
  all: repeat (split; [in_list|]).
  all: vm_compute; reflexivity.
Qed.

Lemma verification_screenshot_after_checks_witness :
  registered (fst (test_misc_costs all_return [])) = stubs /\
  In (Called tab_load_wait None) (fst (test_misc_costs all_return [])) /\
  In (Called (Click (get_by_text "Pricing & Values")) None)
    (fst (test_misc_costs all_return [])) /\
  In (Called (ToBeVisible (get_by_text "Miscellaneous Costs") (Some 5000%Z)) None)
    (fst (test_misc_costs all_return [])) /\
  In (Called target_input_check None) (fst (test_misc_costs all_return [])) /\
  files_written (fst (test_misc_costs all_return [])) = [verification_png].
Proof.
  apply (verification_screenshot_after_checks all_return [] _
           (snd (test_misc_costs all_return [])) None).
  - reflexivity.
  - in_list.
Defined.

(** X3.  A run of the flow writes at most one screenshot, and timeout.png
    is written only in a run that ends with the exception the tab-load
    wait raised. *)
Theorem at_most_one_screenshot (w : world) (h evs : list event)
    (r : result unit) :
  test_misc_costs w h = (evs, r) ->
  List.length (files_written evs) <= 1 /\
  (In timeout_png (files_written evs) ->
   exists e, r = Raise e /\ In (Called tab_load_wait (Some e)) evs).
Proof.
  intros Hrun.
  flow_cases_as w h H k e0 x0; rewrite H in Hrun;
    apply pair_equal_spec in Hrun; destruct Hrun as [<- <-].
  all: try destruct x0.
  all: split; [vm_compute; lia|].
  all: intros Hin.
  all: try (exfalso; in_cases Hin; fail).
  exists e0. split; [reflexivity | in_list].
Qed.

Lemma at_most_one_screenshot_witness :
  List.length (files_written (fst (test_misc_costs tab_never_loads []))) <= 1 /\
  (In timeout_png (files_written (fst (test_misc_costs tab_never_loads []))) ->
   exists e, snd (test_misc_costs tab_never_loads []) = Raise e /\
             In (Called tab_load_wait (Some e))
               (fst (test_misc_costs tab_never_loads []))).
Proof.
  apply (at_most_one_screenshot tab_never_loads []). reflexivity.
Defined.

(** The calls of the successful run, and the diagnostic screenshot, are
    pairwise different. *)
Lemma calls_of_success_distinct :
  NoDup (calls_made success_events ++ [Screenshot timeout_png]).
Proof.
  vm_compute. repeat (constructor; [intros Hin; in_cases Hin|]). constructor.
Qed.

(** X4.  No call of the flow is made twice: nothing is retried.  The
    first call that raises ends the flow, except that after the tab-load
    wait the diagnostic line and screenshot still follow. *)
Theorem no_call_is_repeated (w : world) (h evs : list event)
    (r : result unit) :
  test_misc_costs w h = (evs, r) ->
  NoDup (calls_made evs) /\
  (after_raise evs = [] \/
   exists e x,
     In (Called tab_load_wait (Some e)) evs /\
     after_raise evs = [Printed timeout_line; Called (Screenshot timeout_png) x]).
Proof.
  intros Hrun.
  assert (Hpart : forall l rest,
            calls_made success_events ++ [Screenshot timeout_png] = l ++ rest ->
            NoDup l).
  { intros l rest Heq. pose proof calls_of_success_distinct as Hnd.
    rewrite Heq in Hnd. exact (NoDup_app_remove_r _ _ Hnd). }
  flow_cases_as w h H k e0 x0; rewrite H in Hrun;
    apply pair_equal_spec in Hrun; destruct Hrun as [<- <-].
  all: split.
  all: try (left; vm_compute; reflexivity).
  all: try (right; exists e0, x0; split; [in_list | vm_compute; reflexivity]).
  all: match goal with
       | |- NoDup (calls_made ?l) =>
           try (apply (Hpart _ (skipn (List.length (calls_made l))
                                  (calls_made success_events ++ [Screenshot timeout_png])));
                vm_compute; reflexivity)
       end.
  pose proof calls_of_success_distinct as Hnd.
  change (calls_made success_events ++ [Screenshot timeout_png])
    with (firstn 14 (calls_made success_events) ++
          skipn 14 (calls_made success_events) ++ [Screenshot timeout_png]) in Hnd.
  change (calls_made (fail_at success_events 13 e0 ++
            [Printed timeout_line; Called (Screenshot timeout_png) x0]))
    with (firstn 14 (calls_made success_events) ++ [Screenshot timeout_png]).
  revert Hnd. generalize (firstn 14 (calls_made success_events)).
  generalize (skipn 14 (calls_made success_events)).
  intros mid l. induction mid as [|c mid IH]; intros Hnd; [exact Hnd|].
  apply IH. exact (NoDup_remove_1 _ _ _ Hnd).
Qed.

Lemma no_call_is_repeated_witness :
  NoDup (calls_made (fst (test_misc_costs tab_never_loads []))) /\
  (after_raise (fst (test_misc_costs tab_never_loads [])) = [] \/
   exists e x,
     In (Called tab_load_wait (Some e)) (fst (test_misc_costs tab_never_loads [])) /\
     after_raise (fst (test_misc_costs tab_never_loads [])) =
       [Printed timeout_line; Called (Screenshot timeout_png) x]).
Proof.
  apply (no_call_is_repeated tab_never_loads [] _
           (snd (test_misc_costs tab_never_loads []))).
  reflexivity.
Defined.

(** X5.  An [Exception] with which the script ends was raised by a call
    of the entry point itself (starting Playwright, launching, opening the
    page, closing, leaving the [with] block): what the flow raises, if it
    is an [Exception], never leaves the script. *)
Theorem escaping_exception_not_from_flow (w : world) (evs : list event)
    (e : exn) :
  run w = (evs, Raise e) ->
  is_Exception e = true ->
  exists c, flow_call c = false /\ In (Called c (Some e)) evs.
Proof.
  intros Hrun He.
  destruct (run_shape w)
    as [(x & Hs) | [(x & y & Hs) | [(x & y & Hs) | (evs1 & r1 & x & y & _ & Hs)]]];
    rewrite Hs in Hrun; apply pair_equal_spec in Hrun;
    destruct Hrun as [<- Hr]; clear Hs.
  - injection Hr as ->. exists Enter. split; [reflexivity | left; reflexivity].
  - destruct y as [e'|]; injection Hr as ->.
    + exists Exit. split; [reflexivity | in_list].
    + exists (Launch true). split; [reflexivity | in_list].
  - destruct y as [e'|]; injection Hr as ->.
    + exists Exit. split; [reflexivity | in_list].
    + exists NewPage. split; [reflexivity | in_list].
  - unfold settle in Hr. destruct y as [e'|].
    { injection Hr as ->. exists Exit. split; [reflexivity|].
      apply in_or_app. right. apply in_or_app. right.
      apply in_or_app. right. right. left. reflexivity. }
    destruct x as [e'|].
    { injection Hr as ->. exists Close. split; [reflexivity|].
      apply in_or_app. right. apply in_or_app. right.
      apply in_or_app. right. left. reflexivity. }
    exfalso. destruct r1 as [a|e']; [discriminate Hr|].
    destruct (is_Exception e') eqn:He'; [discriminate Hr|].
    injection Hr as ->. rewrite He in He'. discriminate He'.
Qed.

Lemma escaping_exception_not_from_flow_witness :
  exists c, flow_call c = false /\
            In (Called c (Some (mkExn Error "Browser.close: Connection closed")))
              (fst (run close_fails)).
Proof.
  apply (escaping_exception_not_from_flow close_fails).
  - reflexivity.
  - reflexivity.
Defined.

(** X6.  A timeout at the tab-load wait, re-raised by the flow after the
    diagnostic screenshot, is caught by the entry point like any other
    [Exception]: the line "Error: ..." follows, the browser is closed, and
    the script ends normally. *)
Theorem timeout_ends_run_normally (w : world) (evs : list event)
    (r : result unit) (e : exn) :
  run w = (evs, r) ->
  In (Called tab_load_wait (Some e)) evs ->
  is_Exception e = true ->
  In (Called (Screenshot timeout_png) None) evs ->
  exists pre x y,
    evs = pre ++ [Called tab_load_wait (Some e); Printed timeout_line;
                  Called (Screenshot timeout_png) None;
                  Printed ("Error: " ++ exn_str e)%string;
                  Called Close x; Called Exit y] /\
    (x = None -> y = None -> r = Ok tt).
Proof.
  intros Hrun Hin He Hshot.
  reached_flow w Hrun evs1 r1 x y Hflow.
  1-3: exfalso; in_cases Hin.
  apply flow_call_in_run in Hin; [|reflexivity].
  apply flow_call_in_run in Hshot; [|reflexivity].
  flow_cases_as w setup H k e0 x0; rewrite H in Hflow;
    apply pair_equal_spec in Hflow; destruct Hflow as [<- <-].
  all: try (exfalso; in_cases Hin; fail).
  destruct x0 as [e'|]; [exfalso; in_cases Hshot|].
  in_cases Hin. injection Hin as ->.
  exists (setup ++ removelast (fail_at success_events 13 e)), x, y.
  unfold handled, settle. rewrite He. split.
  - vm_compute. reflexivity.
  - intros -> ->. reflexivity.
Qed.

Lemma timeout_ends_run_normally_witness :
  exists pre x y,
    fst (run tab_never_loads) =
      pre ++ [Called tab_load_wait
                (Some (mkExn TimeoutError
                         "Page.wait_for_selector: Timeout 15000ms exceeded."));
              Printed timeout_line;
              Called (Screenshot timeout_png) None;
              Printed "Error: Page.wait_for_selector: Timeout 15000ms exceeded.";
              Called Close x; Called Exit y] /\
    (x = None -> y = None -> snd (run tab_never_loads) = Ok tt).
Proof.
  apply (timeout_ends_run_normally tab_never_loads _ _
           (mkExn TimeoutError "Page.wait_for_selector: Timeout 15000ms exceeded.")).
  - reflexivity.
  - in_list.
  - reflexivity.
  - in_list.
Defined.

(** The flow never leaves the [with] block. *)
Lemma flow_never_exits (w : world) (h evs : list event) (r : result unit) :
  test_misc_costs w h = (evs, r) -> exits evs = 0.
Proof.
  intros Hrun.
  flow_cases_as w h H k e0 x0; rewrite H in Hrun;
    apply pair_equal_spec in Hrun; destruct Hrun as [<- <-].
  all: vm_compute; reflexivity.
Qed.

(** X7.  Once the page is open, the last two events of every run are
    [browser.close()] and the exit of the [with] block, neither having
    happened before; an exception raised by one of them is what the script
    ends with, whatever the flow raised (one raised on leaving the [with]
    block wins over one raised by [close]). *)
Theorem cleanup_comes_last (w : world) (evs : list event) (r : result unit) :
  run w = (evs, r) ->
  In (Called NewPage None) evs ->
  exists pre x y,
    evs = pre ++ [Called Close x; Called Exit y] /\
    closes pre = 0 /\ exits pre = 0 /\
    (forall e, y = Some e -> r = Raise e) /\
    (forall e, y = None -> x = Some e -> r = Raise e).
Proof.
  intros Hrun Hin.
  reached_flow w Hrun evs1 r1 x y Hflow.
  1-3: exfalso; in_cases Hin.
  exists (setup ++ evs1 ++ handled r1), x, y.
  split; [rewrite <- !app_assoc; reflexivity|].
  assert (Hh : closes (handled r1) = 0 /\ exits (handled r1) = 0).
  { destruct r1 as [a|e]; [split; reflexivity|].
    cbn. destruct (is_Exception e); split; reflexivity. }
  destruct Hh as [Hc He].
  split.
  { rewrite !closes_app, (flow_never_closes _ _ _ _ Hflow), Hc. reflexivity. }
  split.
  { unfold exits in *. rewrite !filter_app, !length_app.
    fold (exits evs1). rewrite (flow_never_exits _ _ _ _ Hflow), He. reflexivity. }
  split.
  - intros e ->. reflexivity.
  - intros e -> ->. reflexivity.
Qed.

Lemma cleanup_comes_last_witness :
  exists pre x y,
    fst (run close_fails) = pre ++ [Called Close x; Called Exit y] /\
    closes pre = 0 /\ exits pre = 0 /\
    (forall e, y = Some e -> snd (run close_fails) = Raise e) /\
    (forall e, y = None -> x = Some e -> snd (run close_fails) = Raise e).
Proof.
  apply (cleanup_comes_last close_fails).
  - reflexivity.
  - in_list.
Defined.

(** X8.  The output tells how the flow ended.  Once the page is open,
    either the flow ended normally, "Done." is printed and no "Error: "
    line; or it raised an [Exception], there is exactly the one line
    "Error: ..." for it and no "Done."; or it raised something that is not
    an [Exception], and neither is printed. *)
Theorem output_tells_outcome (w : world) (evs : list event) (r : result unit) :
  run w = (evs, r) ->
  In (Called NewPage None) evs ->
  (exists evs1,
      test_misc_costs w setup = (evs1, Ok tt) /\
      In (Printed "Done.") evs /\ error_lines evs = [])
  \/ (exists evs1 e,
        test_misc_costs w setup = (evs1, Raise e) /\ is_Exception e = true /\
        error_lines evs = [("Error: " ++ exn_str e)%string] /\
        ~ In (Printed "Done.") evs)
  \/ (exists evs1 e,
        test_misc_costs w setup = (evs1, Raise e) /\ is_Exception e = false /\
        error_lines evs = [] /\
        ~ In (Printed "Done.") evs).
Proof.
  intros Hrun Hin.
  reached_flow w Hrun evs1 r1 x y Hflow.
  1-3: exfalso; in_cases Hin.
  clear Hin.
  flow_cases_as w setup H k e0 x0; try destruct x0; cbv beta iota in H;
    rewrite H in Hflow; apply pair_equal_spec in Hflow;
    destruct Hflow as [<- <-].
  all: lazymatch type of H with
       | _ = (_, Ok tt) =>
           left; eexists; split; [exact H|];
           split; [in_list | vm_compute; reflexivity]
       | _ = (_, Raise ?e) =>
           let He := fresh "He" in
           destruct (is_Exception e) eqn:He; unfold handled; rewrite He;
           [right; left | right; right];
           do 2 eexists; (split; [exact H|]); (split; [exact He|]);
           (split; [vm_compute; reflexivity | intros Hd; in_cases Hd])
       end.
Qed.

Lemma output_tells_outcome_witness :
  (exists evs1,
      test_misc_costs no_handling_input setup = (evs1, Ok tt) /\
      In (Printed "Done.") (fst (run no_handling_input)) /\
      error_lines (fst (run no_handling_input)) = [])
  \/ (exists evs1 e,
        test_misc_costs no_handling_input setup = (evs1, Raise e) /\
        is_Exception e = true /\
        error_lines (fst (run no_handling_input)) = [("Error: " ++ exn_str e)%string] /\
        ~ In (Printed "Done.") (fst (run no_handling_input)))
  \/ (exists evs1 e,
        test_misc_costs no_handling_input setup = (evs1, Raise e) /\
        is_Exception e = false /\
        error_lines (fst (run no_handling_input)) = [] /\
        ~ In (Printed "Done.") (fst (run no_handling_input))).
Proof.
  apply (output_tells_outcome no_handling_input _ (snd (run no_handling_input))).
  - reflexivity.
  - in_list.
Defined.

(** A pattern with more in it matches only what contains its beginning. *)
Lemma contains_first_part (a b s : list ascii) :
  contains (a ++ b) s = true -> contains a s = true.
Proof.
  rewrite !contains_iff. intros (pre & post & ->).
  exists pre, (b ++ post). rewrite <- app_assoc. reflexivity.
Qed.

(** What ends with a path contains it. *)
Lemma ends_with_contains (t s : list ascii) :
  ends_with t s = true -> contains t s = true.
Proof.
  rewrite ends_with_iff, contains_iff. intros [pre ->].
  exists pre, []. rewrite app_nil_r. reflexivity.
Qed.

(** Every pattern of the script needs /api/ in the URL. *)
Lemma stub_pattern_needs_api (s : string * response) (url : string) :
  In s stubs ->
  url_matches (fst s) url = true ->
  contains (chars "/api/") (chars url) = true.
Proof.
  intros Hin. unfold stubs in Hin. vm_compute in Hin.
  repeat (destruct Hin as [Hin | Hin]; [subst s; cbn [fst]|]);
    [..|contradiction]; intros Hm.
  - unfold url_matches in Hm.
    change (Re.compile ".*/api/products/123$")
      with (Some (Re.Star Re.AAny :: lits (chars "/api/products/123") ++ [Re.End])) in Hm.
    apply search_anchored in Hm. destruct Hm as [Hm | Hm];
      apply ends_with_contains in Hm.
    + exact (contains_first_part (chars "/api/") (chars "products/123") _ Hm).
    + exact (contains_first_part (chars "/api/") (chars "products/123" ++ [LF]) _ Hm).
  - apply (url_matches_unanchored "/api/inventory/suppliers") in Hm; [|reflexivity].
    exact (contains_first_part (chars "/api/") (chars "inventory/suppliers") _ Hm).
  - apply (url_matches_unanchored "/api/auth/me") in Hm; [|reflexivity].
    exact (contains_first_part (chars "/api/") (chars "auth/me") _ Hm).
  - unfold url_matches in Hm.
    change (Re.compile ".*/api/accounts$")
      with (Some (Re.Star Re.AAny :: lits (chars "/api/accounts") ++ [Re.End])) in Hm.
    apply search_anchored in Hm. destruct Hm as [Hm | Hm];
      apply ends_with_contains in Hm.
    + exact (contains_first_part (chars "/api/") (chars "accounts") _ Hm).
    + exact (contains_first_part (chars "/api/") (chars "accounts" ++ [LF]) _ Hm).
  - apply (url_matches_unanchored "/api/products/123/sales-history") in Hm; [|reflexivity].
    exact (contains_first_part (chars "/api/") (chars "products/123/sales-history") _ Hm).
  - unfold url_matches in Hm.
    change (Re.compile ".*/api/inventory/products/.*/bom")
      with (Some (Re.Star Re.AAny :: lits (chars "/api/inventory/products/") ++
                    Re.Star Re.AAny :: lits (chars "/bom"))) in Hm.
    apply search_two_parts in Hm. destruct Hm as (pre & mid & post & Hm & _).
    apply contains_iff. exists pre, (chars "inventory/products/" ++ mid ++ chars "/bom" ++ post).
    exact Hm.
  - apply (url_matches_unanchored "/api/audits/PRODUCT/123") in Hm; [|reflexivity].
    exact (contains_first_part (chars "/api/") (chars "audits/PRODUCT/123") _ Hm).
  - apply (url_matches_unanchored "/api/sync/status") in Hm; [|reflexivity].
    exact (contains_first_part (chars "/api/") (chars "sync/status") _ Hm).
  - apply (url_matches_unanchored "/api/notifications") in Hm; [|reflexivity].
    exact (contains_first_part (chars "/api/") (chars "notifications") _ Hm).
  - apply (url_matches_unanchored "/api/chat/unread-count") in Hm; [|reflexivity].
    exact (contains_first_part (chars "/api/") (chars "chat/unread-count") _ Hm).
Qed.

(** X9.  A request whose URL does not contain /api/ matches no stub and
    is not intercepted; the pages the script navigates to are such
    requests. *)
Theorem only_api_requests_intercepted (url : string) :
  contains (chars "/api/") (chars url) = false ->
  intercept stubs url = None /\
  forall s, In s stubs -> url_matches (fst s) url = false.
Proof.
  intros Hno.
  assert (Hall : forall s, In s stubs -> url_matches (fst s) url = false).
  { intros s Hin. destruct (url_matches (fst s) url) eqn:Hm; [|reflexivity].
    rewrite (stub_pattern_needs_api s url Hin Hm) in Hno. discriminate Hno. }
  split; [|exact Hall].
  unfold intercept.
  destruct (find (fun s => url_matches (fst s) url) (rev stubs)) as [s|] eqn:Hf;
    [|reflexivity].
  apply find_some in Hf. destruct Hf as [Hin Hm].
  apply in_rev in Hin. rewrite (Hall s Hin) in Hm. discriminate Hm.
Qed.

Lemma only_api_requests_intercepted_witness :
  intercept stubs product_url = None /\
  forall s, In s stubs -> url_matches (fst s) product_url = false.
Proof.
  apply (only_api_requests_intercepted product_url). reflexivity.
Defined.

(** X10.  The [with] block is left exactly once, as the last thing the
    script does, whenever it was entered, also when the launch or
    [new_page] fails; when Playwright cannot be started the script does
    nothing else and ends with that exception. *)
Theorem with_block_left_once (w : world) (evs : list event) (r : result unit) :
  run w = (evs, r) ->
  (In (Called Enter None) evs ->
   exits evs = 1 /\ exists pre y, evs = pre ++ [Called Exit y]) /\
  (~ In (Called Enter None) evs ->
   exists e, evs = [Called Enter (Some e)] /\ r = Raise e).
Proof.
  intros Hrun.
  reached_flow w Hrun evs1 r1 x y Hflow.
  - split.
    + intros Hin. exfalso. in_cases Hin.
    + intros _. exists x. split; reflexivity.
  - split.
    + intros _. split; [reflexivity|].
      exists [Called Enter None; Called (Launch true) (Some x)], y. reflexivity.
    + intros Hnot. exfalso. apply Hnot. left. reflexivity.
  - split.
    + intros _. split; [reflexivity|].
      exists [Called Enter None; Called (Launch true) None; Called NewPage (Some x)], y.
      reflexivity.
    + intros Hnot. exfalso. apply Hnot. left. reflexivity.
  - split.
    + intros _. split.
      * unfold exits. rewrite !filter_app, !length_app.
        fold (exits evs1). rewrite (flow_never_exits _ _ _ _ Hflow).
        destruct r1 as [a|e]; cbn; [reflexivity|].
        destruct (is_Exception e); reflexivity.
      * exists (setup ++ evs1 ++ handled r1 ++ [Called Close x]), y.
        rewrite <- !app_assoc. reflexivity.
    + intros Hnot. exfalso. apply Hnot. apply in_or_app. left. left. reflexivity.
Qed.

Lemma with_block_left_once_witness :
  (In (Called Enter None) (fst (run launch_fails)) ->
   exits (fst (run launch_fails)) = 1 /\
   exists pre y, fst (run launch_fails) = pre ++ [Called Exit y]) /\
  (~ In (Called Enter None) (fst (run launch_fails)) ->
   exists e, fst (run launch_fails) = [Called Enter (Some e)] /\
             snd (run launch_fails) = Raise e).
Proof.
  apply (with_block_left_once launch_fails). reflexivity.
Defined.
